(** * Recursive Topological Damping: the simulation of [rtd_simulation.py]

    A shallow embedding of class [RTDSimulation] and of the properties its
    specification states about the signal generator
    ([get_target_movement]), the recursive filter ([apply_rtd_filter]) and
    the driver ([run]).

    Numbers.  The driver is embedded over the real numbers: a [float64] is
    modelled by a real, and what the model keeps of numpy and Python is the
    part that decides control flow: whether a value is a [float64] scalar
    or an [ndarray] of shape [(1,)], what [max] returns, and which values a
    format specification accepts.  It serves the properties of structure
    (what is appended, drawn, printed and raised) and of formula.

    The properties of the filter that depend on rounding and overflow are
    stated on a second embedding, [Float64.apply_rtd_filter], over the
    binary64 floats of the kernel, whose operations are those of IEEE 754
    with rounding to nearest even, as numpy's [float64]. *)

From Stdlib Require Import Reals Lra Lia ZArith List Bool QArith Qreals.
From Stdlib Require Import Floats.
Import ListNotations.

Local Open Scope R_scope.

Set Warnings "-inexact-float".

(** ** numpy values *)

(** The two shapes the simulation computes with: a [float64] scalar, and an
    [ndarray] of shape [(1,)] (the driver starts its prediction as
    [np.array([0.0])]). *)
Inductive npval : Type :=
| Scalar (x : R)
| Array1 (x : R).

(** The one number a value holds ([v.item()]). *)
Definition item (v : npval) : R :=
  match v with
  | Scalar x => x
  | Array1 x => x
  end.

(** Broadcasting of a binary ufunc: two scalars give a scalar, and as soon
    as one operand is an array the result is an array of that shape. *)
Definition broadcast2 (f : R -> R -> R) (a b : npval) : npval :=
  match a, b with
  | Scalar x, Scalar y => Scalar (f x y)
  | _, _ => Array1 (f (item a) (item b))
  end.

Definition np_add : npval -> npval -> npval := broadcast2 Rplus.
Definition np_sub : npval -> npval -> npval := broadcast2 Rminus.
Definition np_mul : npval -> npval -> npval := broadcast2 Rmult.

(** [np.abs] keeps the shape of its argument. *)
Definition np_abs (v : npval) : npval :=
  match v with
  | Scalar x => Scalar (Rabs x)
  | Array1 x => Array1 (Rabs x)
  end.

(** What can go wrong in [run].  [DivideByZero] is numpy's divide-by-zero
    floating-point error (a [RuntimeWarning] with an infinite or NaN
    quotient under the default error state): the quotient leaves the real
    numbers.  [TypeError] is what [format] raises when the value does not
    support the format specification. *)
Inductive exn : Type :=
| DivideByZero
| TypeError.

(** [a / b] on numpy values. *)
Definition np_divide (a b : npval) : exn + npval :=
  if Req_dec_T (item b) 0 then inl DivideByZero
  else inr (broadcast2 Rdiv a b).

(** ** Python values reaching the f-string of the log line *)

Inductive pyval : Type :=
| PyInt (n : Z)
| PyNp (v : npval).

Definition num (v : pyval) : R :=
  match v with
  | PyInt n => IZR n
  | PyNp a => item a
  end.

(** The builtin [max(a, b)]: it keeps [a] unless [b > a] is true.  For an
    array of one element the truth value of [b > a] is that of the
    comparison of its element. *)
Definition py_max (a b : pyval) : pyval :=
  if Rlt_dec (num a) (num b) then b else a.

(** The format specification [.4f].  An [int] and a [float64] scalar accept
    it.  [ndarray.__format__] forwards to the element only for an array of
    dimension 0; for any other array it falls back to [object.__format__],
    which raises [TypeError] on a non-empty specification.  The result is
    the number that gets printed (its rounding to four decimals is not
    modelled). *)
Definition format_4f (v : pyval) : option R :=
  match v with
  | PyInt n => Some (IZR n)
  | PyNp (Scalar x) => Some x
  | PyNp (Array1 _) => None
  end.

(** ** The simulation object *)

Record RTDSimulation : Type := mkRTDSimulation {
  dt : R;
  noise_level : R;
  static_core : R * R;
  eigen_decay : R;
  phi_state : R * R
}.

(** [__init__]: the object [RTDSimulation()] builds. *)
Definition init : RTDSimulation :=
  {| dt := 0.01;
     noise_level := 0.4;
     static_core := (0, 0);
     eigen_decay := 0.85;
     phi_state := (0, 0) |}.

(** The object after the assignment [self.eigen_decay = d]. *)
Definition with_eigen_decay (self : RTDSimulation) (d : R) : RTDSimulation :=
  {| dt := dt self;
     noise_level := noise_level self;
     static_core := static_core self;
     eigen_decay := d;
     phi_state := phi_state self |}.

(** ** The recursive filter *)

Definition apply_rtd_filter (self : RTDSimulation)
    (raw_signal predicted_state : npval) : npval :=
  let error := np_sub raw_signal predicted_state in
  let gamma_correction :=
    np_mul error (Scalar (1 - eigen_decay self)) in
  let new_state := np_add predicted_state gamma_correction in
  new_state.

(** Repeated application with a constant raw input [r]:
    [s 0 = predicted0], [s (k+1) = update r (s k)]. *)
Fixpoint iterate_filter (self : RTDSimulation) (r predicted0 : R) (k : nat)
  : npval :=
  match k with
  | O => Scalar predicted0
  | S k' =>
      apply_rtd_filter self (Scalar r) (iterate_filter self r predicted0 k')
  end.

(** ** The coherence metric of the log line *)

(** [1.0 - (np.abs(stable_pos - target_pos) / (np.abs(target_pos) + 1.5))] *)
Definition coherence (stable_pos target_pos : npval) : exn + npval :=
  match np_divide (np_abs (np_sub stable_pos target_pos))
                  (np_add (np_abs target_pos) (Scalar 1.5)) with
  | inl e => inl e
  | inr q => inr (np_sub (Scalar 1) q)
  end.

(** ** The process state [run] works on *)

(** A line written to standard output. *)
Inductive line : Type :=
| BannerStarted                  (* --- RTD Simulation Started --- *)
| BannerTarget                   (* Target: Full Robotic Autonomy ... *)
| BannerNoise (percent : R)      (* Environmental Noise Level: ...% *)
| Rule                           (* forty dashes *)
| StepLine (i : Z) (c : R)       (* Step i | Coherence: c | Status: STABLE *)
| SimulationComplete             (* Simulation Complete: ... *)
| FrameworkReady.                (* RTD Framework: Ready for ... *)

(** The number of variates drawn so far from the process-wide random
    generator, the lines printed so far, and the local variables of [run]. *)
Record state : Type := mkState {
  consumed : nat;
  stdout : list line;
  current_prediction : npval;
  raw_sensor_data : list npval;
  rtd_trajectory : list npval
}.

(** How a piece of code ends: normally, or by an exception that leaves the
    state as it was when it was raised. *)
Inductive completion : Type :=
| Normal (st : state)
| Raised (e : exn) (st : state).

Definition state_of (c : completion) : state :=
  match c with
  | Normal st => st
  | Raised _ st => st
  end.

(** The value of [return raw_sensor_data, rtd_trajectory], when the call
    gets there. *)
Definition returned (c : completion) : option (list npval * list npval) :=
  match c with
  | Normal st => Some (raw_sensor_data st, rtd_trajectory st)
  | Raised _ _ => None
  end.

Definition print (l : line) (st : state) : state :=
  {| consumed := consumed st;
     stdout := stdout st ++ [l];
     current_prediction := current_prediction st;
     raw_sensor_data := raw_sensor_data st;
     rtd_trajectory := rtd_trajectory st |}.

(** [range(steps)]: the indices [0, 1, ..., steps - 1]; empty when
    [steps <= 0]. *)
Definition range (steps : Z) : list Z :=
  map Z.of_nat (seq 0 (Z.to_nat steps)).

Section Simulation.

(** The random stream: the standard normal variates the process-wide
    generator yields, in the order of the calls. *)
Variable variates : nat -> R.

Variable self : RTDSimulation.

(** [np.random.normal(loc, scale)] for a scale that is not negative: the
    next variate of the stream, scaled and shifted; one variate is
    consumed.  (For a negative scale numpy raises [ValueError] before it
    draws; the properties that depend on it assume
    [0 <= noise_level].) *)
Definition np_random_normal (loc scale : R) (st : state) : R * state :=
  (loc + scale * variates (consumed st),
   {| consumed := S (consumed st);
      stdout := stdout st;
      current_prediction := current_prediction st;
      raw_sensor_data := raw_sensor_data st;
      rtd_trajectory := rtd_trajectory st |}).

(** ** The signal generator *)

Definition get_target_movement (t : R) (st : state) : npval * state :=
  let pulse := 0.5 * sin (2 * PI * 1.2 * t) in
  let breath := 1.2 * sin (2 * PI * 0.3 * t) in
  let '(stochastic_noise, st') := np_random_normal 0 (noise_level self) st in
  (Scalar (pulse + breath + stochastic_noise), st').

(** ** The driver *)

(** The body of [for i in range(steps)]. *)
Definition loop_body (i : Z) (st : state) : completion :=
  let t := IZR i * dt self in
  (* 1. Acquire raw (noisy) sensor telemetry *)
  let '(target_pos, st1) := get_target_movement t st in
  (* 2. Apply RTD (Static Core Stabilization) *)
  let stable_pos :=
    apply_rtd_filter self target_pos (current_prediction st1) in
  let st2 :=
    {| consumed := consumed st1;
       stdout := stdout st1;
       current_prediction := stable_pos;
       raw_sensor_data := raw_sensor_data st1 ++ [target_pos];
       rtd_trajectory := rtd_trajectory st1 ++ [stable_pos] |} in
  (* 3. Log Coherence Metrics *)
  if (i mod 200 =? 0)%Z then
    match coherence stable_pos target_pos with
    | inl e => Raised e st2
    | inr c =>
        match format_4f (py_max (PyInt 0) (PyNp c)) with
        | None => Raised TypeError st2
        | Some v => Normal (print (StepLine i v) st2)
        end
    end
  else Normal st2.

(** The [for] statement: the body once per index, in order, until an
    exception leaves the loop. *)
Fixpoint for_loop (indices : list Z) (st : state) : completion :=
  match indices with
  | [] => Normal st
  | i :: rest =>
      match loop_body i st with
      | Normal st' => for_loop rest st'
      | Raised e st' => Raised e st'
      end
  end.

(** The state when the loop is entered, for a prediction [p0]: the banner
    is printed and both trajectories are empty. [pos] is the number of
    variates drawn before the call. *)
Definition at_loop_entry (p0 : npval) (pos : nat) : state :=
  {| consumed := pos;
     stdout := [BannerStarted; BannerTarget;
                BannerNoise (noise_level self * 100); Rule];
     current_prediction := p0;
     raw_sensor_data := [];
     rtd_trajectory := [] |}.

(** The closing lines, then the [return]. *)
Definition finish (st : state) : completion :=
  Normal (print FrameworkReady (print SimulationComplete (print Rule st))).

(** [run] with the prediction initialised to [p0]. *)
Definition run_from (p0 : npval) (steps : Z) (pos : nat) : completion :=
  match for_loop (range steps) (at_loop_entry p0 pos) with
  | Normal st => finish st
  | Raised e st => Raised e st
  end.

(** [run(steps)], called when [pos] variates have been drawn:
    [current_prediction = np.array([0.0])]. *)
Definition run (steps : Z) (pos : nat) : completion :=
  run_from (Array1 0) steps pos.

End Simulation.

(** The trajectories are threaded through the filter from [p0]: they have
    the same length, the first filtered state is the update of [p0] by the
    first raw sample, and each later one is the update of the one before
    it by the raw sample of its step. *)
Definition threaded (self : RTDSimulation) (p0 : npval)
    (raws filts : list npval) : Prop :=
  length filts = length raws /\
  forall i : nat, (i < length raws)%nat ->
    nth i filts (Scalar 0)
    = apply_rtd_filter self (nth i raws (Scalar 0))
        (match i with
         | O => p0
         | S j => nth j filts (Scalar 0)
         end).

(** What the loop keeps true of its local variables: the trajectories are
    threaded, and the prediction is the last filtered state. *)
Definition loop_invariant (self : RTDSimulation) (p0 : npval) (st : state)
  : Prop :=
  threaded self p0 (raw_sensor_data st) (rtd_trajectory st) /\
  current_prediction st = last (rtd_trajectory st) p0.

(** The lines of the form [Step ... | Coherence: ...] among the output. *)
Definition step_lines (out : list line) : list (Z * R) :=
  flat_map (fun l => match l with StepLine i c => [(i, c)] | _ => [] end) out.

(** A stream without noise, for examples. *)
Definition silent : nat -> R := fun _ => 0.

(** ** Notions the further properties are stated with *)

(** The noise-free part of a sample: [pulse + breath] of
    [get_target_movement]. *)
Definition displacement (t : R) : R :=
  0.5 * sin (2 * PI * 1.2 * t) + 1.2 * sin (2 * PI * 0.3 * t).

(** The value of the sample of step [j] of a run entered at position [pos]
    of the stream: the displacement at [t = j * dt] plus the noise made of
    the variate at position [pos + j]. *)
Definition sample_value (variates : nat -> R) (self : RTDSimulation)
    (pos j : nat) : R :=
  displacement (IZR (Z.of_nat j) * dt self)
  + (0 + noise_level self * variates (pos + j)%nat).

Definition is_scalar (v : npval) : bool :=
  match v with
  | Scalar _ => true
  | Array1 _ => false
  end.

Definition is_array (v : npval) : bool := negb (is_scalar v).

(** The test [i % 200 == 0] of the log statement. *)
Definition sampled (i : Z) : bool := (i mod 200 =? 0)%Z.

(** Where the loop stands after [k] iterations of a run entered at
    position [pos]: [k] entries in each trajectory, [k] variates drawn, and
    the raw samples are those of steps [0 .. k-1]. *)
Definition after_iterations (variates : nat -> R) (self : RTDSimulation)
    (pos k : nat) (st : state) : Prop :=
  length (raw_sensor_data st) = k /\
  length (rtd_trajectory st) = k /\
  consumed st = (pos + k)%nat /\
  forall j : nat, (j < k)%nat ->
    nth j (raw_sensor_data st) (Scalar 0)
    = Scalar (sample_value variates self pos j).

(** The log line of a pair (step index, value printed). *)
Definition step_line (ic : Z * R) : line := StepLine (fst ic) (snd ic).

(** The shapes of the values [run] holds: every raw sample is a scalar,
    every filtered state and the prediction are arrays. *)
Definition shapes_of_run (st : state) : Prop :=
  forallb is_scalar (raw_sensor_data st) = true /\
  forallb is_array (rtd_trajectory st) = true /\
  is_array (current_prediction st) = true.

(** The module run as a script: [sim = RTDSimulation(); sim.run()], with
    the default [steps=1000]. *)
Definition main (variates : nat -> R) (pos : nat) : completion :=
  run variates init 1000 pos.

(** ** The filter over binary64 *)

Module Float64.

(** [apply_rtd_filter] on [float64] scalars; [eigen_decay] is the attribute
    of the object, and [1 - self.eigen_decay] is the float [1.0 - d]. *)
Definition apply_rtd_filter (eigen_decay raw_signal predicted_state : float)
  : float :=
  let error := (raw_signal - predicted_state)%float in
  let gamma_correction := (error * (1 - eigen_decay))%float in
  let new_state := (predicted_state + gamma_correction)%float in
  new_state.

(** Repeated application with a constant raw input [r]. *)
Fixpoint iterate_filter (eigen_decay r predicted0 : float) (k : nat)
  : float :=
  match k with
  | O => predicted0
  | S k' =>
      apply_rtd_filter eigen_decay r
        (iterate_filter eigen_decay r predicted0 k')
  end.




End Float64.

(** A zero or a finite number, on the specification side of the floats. *)
Definition sf_finite (x : spec_float) : bool :=
  match x with
  | S754_zero _ | S754_finite _ _ _ => true
  | S754_infinity _ | S754_nan => false
  end.

(** * The filter *)

Lemma item_broadcast2 (f : R -> R -> R) (a b : npval) :
  item (broadcast2 f a b) = f (item a) (item b).
Proof. destruct a, b; reflexivity. Qed.

Lemma item_apply_rtd_filter (self : RTDSimulation) (raw predicted : npval) :
  item (apply_rtd_filter self raw predicted)
  = item predicted + (item raw - item predicted) * (1 - eigen_decay self).
Proof.
  unfold apply_rtd_filter, np_add, np_mul, np_sub.
  rewrite !item_broadcast2. reflexivity.
Qed.

Lemma apply_rtd_filter_scalar (self : RTDSimulation) (raw predicted : R) :
  apply_rtd_filter self (Scalar raw) (Scalar predicted)
  = Scalar (predicted + (raw - predicted) * (1 - eigen_decay self)).
Proof. reflexivity. Qed.

(** Whatever the raw sample, the update of an array is an array. *)
Lemma apply_rtd_filter_array (self : RTDSimulation) (raw : npval) (p : R) :
  apply_rtd_filter self raw (Array1 p)
  = Array1 (p + (item raw - p) * (1 - eigen_decay self)).
Proof. destruct raw; reflexivity. Qed.

Lemma iterate_filter_scalar (self : RTDSimulation) (r p0 : R) (k : nat) :
  iterate_filter self r p0 k = Scalar (item (iterate_filter self r p0 k)).
Proof.
  induction k as [|k IH]; [reflexivity|].
  simpl. rewrite IH. reflexivity.
Qed.






(** * The coherence metric *)

Lemma coherence_denominator (target_pos : npval) :
  item (np_add (np_abs target_pos) (Scalar 1.5)) = Rabs (item target_pos) + 1.5.
Proof. destruct target_pos; reflexivity. Qed.

Lemma coherence_value (stable_pos target_pos : npval) :
  exists c : npval,
    coherence stable_pos target_pos = inr c /\
    item c = 1 - Rabs (item stable_pos - item target_pos)
                 / (Rabs (item target_pos) + 1.5).
Proof.
  unfold coherence, np_divide.
  destruct (Req_dec_T _ 0) as [Hz|Hnz].
  - rewrite coherence_denominator in Hz.
    pose proof (Rabs_pos (item target_pos)). lra.
  - eexists. split; [reflexivity|].
    unfold np_sub. rewrite !item_broadcast2, coherence_denominator.
    destruct stable_pos, target_pos; reflexivity.
Qed.

(** The metric of an array is an array. *)
Lemma coherence_array (s : R) (target_pos : npval) :
  exists c : R,
    coherence (Array1 s) target_pos = inr (Array1 c) /\
    c = 1 - Rabs (s - item target_pos) / (Rabs (item target_pos) + 1.5).
Proof.
  destruct (coherence_value (Array1 s) target_pos) as [v [Hv Hi]].
  exists (item v). split; [|exact Hi].
  rewrite Hv. f_equal.
  unfold coherence, np_divide in Hv.
  destruct (Req_dec_T _ 0); [discriminate|].
  injection Hv as <-. destruct target_pos; reflexivity.
Qed.

(** The metric of two scalars is a scalar. *)
Lemma coherence_scalar (s x : R) :
  exists c : R, coherence (Scalar s) (Scalar x) = inr (Scalar c).
Proof.
  destruct (coherence_value (Scalar s) (Scalar x)) as [v [Hv _]].
  exists (item v). rewrite Hv. f_equal.
  unfold coherence, np_divide in Hv.
  destruct (Req_dec_T _ 0); [discriminate|].
  injection Hv as <-. reflexivity.
Qed.

(** [max(0, c)] is never below 0. *)
Lemma py_max_zero_nonneg (c : npval) :
  0 <= num (py_max (PyInt 0) (PyNp c)).
Proof.
  unfold py_max. destruct (Rlt_dec _ _) as [H|H]; simpl in *; lra.
Qed.

(** * The loop body *)

Section Body.

Variable variates : nat -> R.
Variable self : RTDSimulation.

Lemma get_target_movement_eq (t : R) (st : state) :
  get_target_movement variates self t st
  = (Scalar (0.5 * sin (2 * PI * 1.2 * t) + 1.2 * sin (2 * PI * 0.3 * t)
             + (0 + noise_level self * variates (consumed st))),
     {| consumed := S (consumed st);
        stdout := stdout st;
        current_prediction := current_prediction st;
        raw_sensor_data := raw_sensor_data st;
        rtd_trajectory := rtd_trajectory st |}).
Proof. reflexivity. Qed.

(** What an iteration has done to the generator position, the prediction
    and the trajectories, whether or not its log statement raises. *)
Lemma loop_body_state (i : Z) (st : state) :
  let x := fst (get_target_movement variates self (IZR i * dt self) st) in
  let s := apply_rtd_filter self x (current_prediction st) in
  consumed (state_of (loop_body variates self i st)) = S (consumed st) /\
  current_prediction (state_of (loop_body variates self i st)) = s /\
  raw_sensor_data (state_of (loop_body variates self i st))
  = raw_sensor_data st ++ [x] /\
  rtd_trajectory (state_of (loop_body variates self i st))
  = rtd_trajectory st ++ [s].
Proof.
  unfold loop_body. rewrite get_target_movement_eq. cbn [fst].
  cbv zeta. cbn [consumed stdout current_prediction raw_sensor_data
                rtd_trajectory].
  destruct (i mod 200 =? 0)%Z; [|cbn; auto].
  destruct (coherence _ _); [cbn; auto|].
  destruct (format_4f _); cbn; auto.
Qed.

(** The log statement prints on the sampled steps only, and at most one
    line. *)
Lemma loop_body_stdout (i : Z) (st : state) :
  match loop_body variates self i st with
  | Normal st' =>
      if (i mod 200 =? 0)%Z
      then exists v : R, stdout st' = stdout st ++ [StepLine i v]
      else stdout st' = stdout st
  | Raised _ st' => stdout st' = stdout st /\ (i mod 200 = 0)%Z
  end.
Proof.
  unfold loop_body. rewrite get_target_movement_eq. cbv zeta.
  cbn [consumed stdout current_prediction raw_sensor_data rtd_trajectory].
  destruct (i mod 200 =? 0)%Z eqn:Hi; [|reflexivity].
  apply Z.eqb_eq in Hi.
  destruct (coherence _ _); [cbn; auto|].
  destruct (format_4f _); cbn; eauto.
Qed.

(** The division of the metric never raises. *)
Lemma loop_body_no_divide_by_zero (i : Z) (st st' : state) :
  loop_body variates self i st <> Raised DivideByZero st'.
Proof.
  unfold loop_body. rewrite get_target_movement_eq. cbv zeta.
  destruct (i mod 200 =? 0)%Z; [|discriminate].
  match goal with
  | |- context [coherence ?a ?b] =>
      destruct (coherence_value a b) as [c [-> _]]
  end.
  destruct (format_4f _); discriminate.
Qed.

(** With a scalar prediction the iteration ends normally, and the
    prediction stays a scalar. *)
Lemma loop_body_scalar (i : Z) (st : state) (p : R) :
  current_prediction st = Scalar p ->
  exists st' p',
    loop_body variates self i st = Normal st' /\
    current_prediction st' = Scalar p'.
Proof.
  intros Hp. unfold loop_body. rewrite get_target_movement_eq. cbv zeta.
  cbn [consumed stdout current_prediction raw_sensor_data rtd_trajectory].
  rewrite Hp, apply_rtd_filter_scalar.
  destruct (i mod 200 =? 0)%Z; [|eexists; eexists; split; reflexivity].
  match goal with
  | |- context [coherence (Scalar ?a) (Scalar ?b)] =>
      destruct (coherence_scalar a b) as [c ->]
  end.
  unfold py_max. destruct (Rlt_dec _ _); cbn;
    eexists; eexists; split; reflexivity.
Qed.

(** With an array prediction the log statement of a sampled step raises
    [TypeError] as soon as the metric is positive, and prints [0]
    otherwise. *)
Lemma loop_body_array (i : Z) (st : state) (p : R) :
  current_prediction st = Array1 p ->
  (i mod 200 = 0)%Z ->
  let x :=
    item (fst (get_target_movement variates self (IZR i * dt self) st)) in
  let s := p + (x - p) * (1 - eigen_decay self) in
  let c := 1 - Rabs (s - x) / (Rabs x + 1.5) in
  (0 < c -> exists st', loop_body variates self i st = Raised TypeError st') /\
  (c <= 0 -> exists st',
      loop_body variates self i st = Normal st' /\
      stdout st' = stdout st ++ [StepLine i 0]).
Proof.
  intros Hp Hi. unfold loop_body. rewrite get_target_movement_eq. cbv zeta.
  cbn [consumed stdout current_prediction raw_sensor_data rtd_trajectory
       fst item].
  apply Z.eqb_eq in Hi. rewrite Hi, Hp, apply_rtd_filter_array.
  cbn [item].
  match goal with
  | |- context [coherence (Array1 ?a) ?b] =>
      destruct (coherence_array a b) as [c [-> Hc]]
  end.
  cbn [item] in Hc. rewrite <- Hc.
  unfold py_max. cbn [num item].
  destruct (Rlt_dec 0 c) as [Hpos|Hneg]; cbn; split; intros H;
    try lra; eexists; try split; reflexivity.
Qed.

End Body.

(** * Threading of the trajectories *)

(** Appending a raw sample and the update of the last filtered state keeps
    the trajectories threaded. *)
Lemma threaded_snoc (self : RTDSimulation) (p0 x : npval)
    (raws filts : list npval) :
  threaded self p0 raws filts ->
  threaded self p0 (raws ++ [x])
    (filts ++ [apply_rtd_filter self x (last filts p0)]).
Proof.
  intros [Hlen Hnth]. split.
  - rewrite !length_app, Hlen. reflexivity.
  - intros i Hi. rewrite length_app in Hi. cbn [length] in Hi.
    destruct (Nat.eq_dec i (length raws)) as [->|Hne].
    + rewrite nth_middle. rewrite <- Hlen at 1. rewrite nth_middle.
      f_equal. rewrite <- Hlen.
      destruct filts as [|a l] using rev_ind; [reflexivity|].
      rewrite last_last, length_app. cbn [length].
      rewrite Nat.add_1_r, <- app_assoc. cbn [app].
      rewrite nth_middle. reflexivity.
    + assert (Hlt : (i < length raws)%nat) by lia.
      rewrite (app_nth1 raws _ _ Hlt).
      rewrite app_nth1 by lia.
      rewrite (Hnth i Hlt). f_equal.
      destruct i as [|j]; [reflexivity|].
      rewrite app_nth1 by lia. reflexivity.
Qed.

Section Loop.

Variable self : RTDSimulation.

Lemma loop_body_invariant (variates : nat -> R) (p0 : npval) (i : Z)
    (st : state) :
  loop_invariant self p0 st ->
  loop_invariant self p0 (state_of (loop_body variates self i st)).
Proof.
  intros [Hthr Hcur].
  destruct (loop_body_state variates self i st) as (_ & Hp & Hraw & Hrtd).
  split.
  - rewrite Hraw, Hrtd, Hcur. apply threaded_snoc. exact Hthr.
  - rewrite Hp, Hrtd, last_last. reflexivity.
Qed.

Lemma for_loop_invariant (variates : nat -> R) (p0 : npval)
    (indices : list Z) (st : state) :
  loop_invariant self p0 st ->
  loop_invariant self p0 (state_of (for_loop variates self indices st)).
Proof.
  revert st. induction indices as [|i rest IH]; intros st Hst; [exact Hst|].
  cbn [for_loop].
  pose proof (loop_body_invariant variates p0 i st Hst) as Hb.
  destruct (loop_body variates self i st) as [st'|e st']; cbn in Hb.
  - apply IH. exact Hb.
  - exact Hb.
Qed.

(** The trajectories [run_from] has built when it ends, normally or not, are
    threaded through the filter from the initial prediction. *)
Lemma run_from_threaded (variates : nat -> R) (p0 : npval) (steps : Z)
    (pos : nat) :
  threaded self p0
    (raw_sensor_data (state_of (run_from variates self p0 steps pos)))
    (rtd_trajectory (state_of (run_from variates self p0 steps pos))).
Proof.
  unfold run_from.
  assert (H0 : loop_invariant self p0 (at_loop_entry self p0 pos)).
  { split; [split; [reflexivity|]|reflexivity].
    intros i Hi. cbn in Hi. lia. }
  pose proof (for_loop_invariant variates p0 (range steps) _ H0) as [H _].
  destruct (for_loop variates self (range steps) _); exact H.
Qed.

(** An iteration reads the stream at the current position only. *)
Lemma loop_body_stream_ext (z1 z2 : nat -> R) (i : Z) (st : state) :
  z1 (consumed st) = z2 (consumed st) ->
  loop_body z1 self i st = loop_body z2 self i st.
Proof.
  intros H. unfold loop_body. rewrite !get_target_movement_eq, H.
  reflexivity.
Qed.

Lemma for_loop_stream_ext (z1 z2 : nat -> R) (indices : list Z) (st : state) :
  (forall k : nat, (k < length indices)%nat ->
     z1 (consumed st + k)%nat = z2 (consumed st + k)%nat) ->
  for_loop z1 self indices st = for_loop z2 self indices st.
Proof.
  revert st. induction indices as [|i rest IH]; intros st H; [reflexivity|].
  cbn [for_loop].
  rewrite (loop_body_stream_ext z1 z2 i st)
    by (specialize (H O); rewrite Nat.add_0_r in H; apply H; cbn; lia).
  pose proof (loop_body_state z2 self i st) as (Hc & _).
  destruct (loop_body z2 self i st) as [st'|e st']; [|reflexivity].
  cbn in Hc. apply IH. intros k Hk. rewrite Hc.
  specialize (H (S k)). rewrite Nat.add_succ_r in H.
  apply H. cbn. lia.
Qed.

(** A loop that ends normally has drawn one variate and appended one entry
    to each trajectory per index. *)
Lemma for_loop_normal_counts (variates : nat -> R) (indices : list Z)
    (st st' : state) :
  for_loop variates self indices st = Normal st' ->
  consumed st' = (consumed st + length indices)%nat /\
  length (raw_sensor_data st')
  = (length (raw_sensor_data st) + length indices)%nat /\
  length (rtd_trajectory st')
  = (length (rtd_trajectory st) + length indices)%nat.
Proof.
  revert st. induction indices as [|i rest IH]; intros st H.
  - injection H as <-. cbn. lia.
  - cbn [for_loop] in H.
    pose proof (loop_body_state variates self i st) as (Hc & _ & Hr & Hf).
    destruct (loop_body variates self i st) as [st1|e st1]; [|discriminate].
    cbn in Hc, Hr, Hf. destruct (IH _ H) as (Ic & Ir & If).
    rewrite Ic, Ir, If, Hc, Hr, Hf, !length_app. cbn. lia.
Qed.

(** With a scalar prediction the loop runs to its end. *)
Lemma for_loop_scalar (variates : nat -> R) (indices : list Z) (st : state)
    (p : R) :
  current_prediction st = Scalar p ->
  exists st', for_loop variates self indices st = Normal st'.
Proof.
  revert st p. induction indices as [|i rest IH]; intros st p Hp.
  - eexists. reflexivity.
  - cbn [for_loop].
    destruct (loop_body_scalar variates self i st p Hp)
      as (st1 & p1 & -> & Hp1).
    apply (IH st1 p1 Hp1).
Qed.

End Loop.

Lemma range_nonpositive (steps : Z) : (steps <= 0)%Z -> range steps = [].
Proof.
  intros H. unfold range.
  replace (Z.to_nat steps) with O by lia. reflexivity.
Qed.

Lemma range_positive (steps : Z) :
  (0 < steps)%Z -> exists rest : list Z, range steps = 0%Z :: rest.
Proof.
  intros H. unfold range.
  destruct (Z.to_nat steps) as [|n] eqn:E; [lia|].
  eexists. reflexivity.
Qed.

Lemma length_range (steps : Z) : length (range steps) = Z.to_nat steps.
Proof. unfold range. rewrite length_map, length_seq. reflexivity. Qed.

(** * The driver *)

(** After the first update from a prediction of 0, the metric is positive
    for every raw sample, as long as the decay is at most 1 in absolute
    value. *)
Lemma first_metric_positive (d x : R) :
  Rabs d <= 1 ->
  0 < 1 - Rabs (0 + (x - 0) * (1 - d) - x) / (Rabs x + 1.5).
Proof.
  intros Hd.
  replace (0 + (x - 0) * (1 - d) - x) with (- (d * x)) by ring.
  rewrite Rabs_Ropp, Rabs_mult.
  pose proof (Rabs_pos x) as Hx. pose proof (Rabs_pos d) as Hd0.
  assert (H : Rabs d * Rabs x / (Rabs x + 1.5) < 1).
  { apply (Rmult_lt_reg_r (Rabs x + 1.5)); [lra|].
    replace (Rabs d * Rabs x / (Rabs x + 1.5) * (Rabs x + 1.5))
      with (Rabs d * Rabs x) by (field; lra).
    nra. }
  lra.
Qed.

(** [run] does not get past the log statement of step 0: the metric is a
    positive array of one element, [max] returns it, and the format
    specification raises [TypeError].  One variate has been drawn, one
    entry appended to each trajectory, and only the banner printed. *)
Lemma run_raises (variates : nat -> R) (self : RTDSimulation) (steps : Z)
    (pos : nat) :
  Rabs (eigen_decay self) <= 1 ->
  (0 < steps)%Z ->
  exists st : state,
    run variates self steps pos = Raised TypeError st /\
    consumed st = S pos /\
    stdout st = [BannerStarted; BannerTarget;
                 BannerNoise (noise_level self * 100); Rule] /\
    length (raw_sensor_data st) = 1%nat /\
    length (rtd_trajectory st) = 1%nat.
Proof.
  intros Hd Hsteps. unfold run, run_from.
  destruct (range_positive steps Hsteps) as [rest ->].
  cbn [for_loop].
  set (st0 := at_loop_entry self (Array1 0) pos).
  destruct (loop_body_array variates self 0 st0 0 eq_refl eq_refl)
    as [Hpos _].
  destruct Hpos as [st Hst]; [apply first_metric_positive; exact Hd|].
  pose proof (loop_body_state variates self 0 st0) as (Hc & _ & Hr & Hf).
  pose proof (loop_body_stdout variates self 0 st0) as Ho.
  rewrite Hst in Hc, Hr, Hf, Ho |- *. cbn in Hc, Hr, Hf, Ho.
  exists st. repeat split.
  - exact Hc.
  - apply Ho.
  - rewrite Hr. reflexivity.
  - rewrite Hf. reflexivity.
Qed.

Lemma init_decay_bounded : Rabs (eigen_decay init) <= 1.
Proof. cbn. rewrite Rabs_pos_eq; lra. Qed.

(** With no index to iterate on, [run] prints the banner and the closing
    lines and returns two empty lists. *)
Lemma run_nonpositive (variates : nat -> R) (self : RTDSimulation)
    (steps : Z) (pos : nat) :
  (steps <= 0)%Z ->
  run variates self steps pos
  = Normal {| consumed := pos;
              stdout := [BannerStarted; BannerTarget;
                         BannerNoise (noise_level self * 100); Rule;
                         Rule; SimulationComplete; FrameworkReady];
              current_prediction := Array1 0;
              raw_sensor_data := [];
              rtd_trajectory := [] |}.
Proof.
  intros H. unfold run, run_from. rewrite (range_nonpositive steps H).
  reflexivity.
Qed.

(** Started from a scalar prediction, the same loop runs to its end and
    returns trajectories of [steps] entries, having drawn [steps]
    variates. *)
Lemma run_from_scalar_returns (variates : nat -> R) (self : RTDSimulation)
    (p : R) (steps : Z) (pos : nat) :
  exists st : state,
    run_from variates self (Scalar p) steps pos = Normal st /\
    length (raw_sensor_data st) = Z.to_nat steps /\
    length (rtd_trajectory st) = Z.to_nat steps /\
    consumed st = (pos + Z.to_nat steps)%nat.
Proof.
  unfold run_from.
  destruct (for_loop_scalar self variates (range steps)
              (at_loop_entry self (Scalar p) pos) p eq_refl) as [st Hst].
  rewrite Hst.
  destruct (for_loop_normal_counts self variates _ _ _ Hst) as (Hc & Hr & Hf).
  rewrite length_range in Hc, Hr, Hf. cbn in Hc, Hr, Hf.
  eexists. split; [reflexivity|]. cbn. auto.
Qed.

(** * The properties of the specification *)

(** C2.  What the code does where the claim promises two trajectories of
    [steps] entries: for every positive [steps], [run] on the object
    [RTDSimulation()] raises [TypeError] at the log statement of step 0 and
    returns nothing. *)
Theorem run_positive_steps_raises (variates : nat -> R) (steps : Z)
    (pos : nat) :
  (0 < steps)%Z ->
  (exists st : state, run variates init steps pos = Raised TypeError st) /\
  returned (run variates init steps pos) = None.
Proof.
  intros H.
  destruct (run_raises variates init steps pos init_decay_bounded H)
    as (st & Hst & _).
  rewrite Hst. split; [exists st|]; reflexivity.
Qed.

Lemma run_positive_steps_raises_witness :
  (0 < 1)%Z /\
  ((exists st : state, run silent init 1 0 = Raised TypeError st) /\
   returned (run silent init 1 0) = None).
Proof.
  split.
  - lia.
  - apply (run_positive_steps_raises silent 1 0). lia.
Defined.

(** C3, as the code has it.  [run] validates nothing: for a negative
    [steps] the range is empty, no step is simulated, no variate is drawn,
    and [run] returns two empty trajectories after printing the banner and
    the closing lines. *)
Theorem negative_steps_returns_empty (variates : nat -> R)
    (self : RTDSimulation) (steps : Z) (pos : nat) :
  (steps < 0)%Z ->
  returned (run variates self steps pos) = Some ([], []) /\
  consumed (state_of (run variates self steps pos)) = pos /\
  stdout (state_of (run variates self steps pos))
  = [BannerStarted; BannerTarget; BannerNoise (noise_level self * 100);
     Rule; Rule; SimulationComplete; FrameworkReady].
Proof.
  intros H. rewrite run_nonpositive by lia. repeat split.
Qed.

Lemma negative_steps_returns_empty_witness :
  (-5 < 0)%Z /\
  (returned (run silent init (-5) 0) = Some ([], []) /\
   consumed (state_of (run silent init (-5) 0)) = 0%nat /\
   stdout (state_of (run silent init (-5) 0))
   = [BannerStarted; BannerTarget; BannerNoise (noise_level init * 100);
      Rule; Rule; SimulationComplete; FrameworkReady]).
Proof.
  split.
  - lia.
  - apply (negative_steps_returns_empty silent init (-5) 0). lia.
Defined.

(** C3, the claim as stated fails: [run(-1)] raises nothing and returns two
    empty lists. *)
Lemma negative_steps_no_error :
  returned (run silent init (-1) 0) = Some ([], []) /\
  ~ (exists (e : exn) (st : state), run silent init (-1) 0 = Raised e st).
Proof.
  rewrite run_nonpositive by lia. split; [reflexivity|].
  intros (e & st & H). discriminate H.
Qed.

(** C5.  What the code does at the sampled step 0 of [run(1)]: the log
    statement raises [TypeError], and no line reporting a coherence value
    has been printed. *)
Theorem first_sampled_step_logs_nothing (variates : nat -> R) (pos : nat) :
  exists st : state,
    run variates init 1 pos = Raised TypeError st /\
    step_lines (stdout st) = [].
Proof.
  destruct (run_raises variates init 1 pos init_decay_bounded)
    as (st & Hst & _ & Hout & _); [lia|].
  exists st. split; [exact Hst|]. rewrite Hout. reflexivity.
Qed.

(** C6.  A sample is the sum of three terms: [0.5 * sin(2 pi 1.2 t)],
    [1.2 * sin(2 pi 0.3 t)] and the result of one call of
    [np.random.normal] with mean 0 and scale [noise_level] (0.4 on a fresh
    object), which takes the next variate of the stream and no other; when
    that noise term is 0, the sample at [t = 0] is 0. *)
Theorem generator_sample (variates : nat -> R) (self : RTDSimulation)
    (t : R) (st : state) (noise : R) (st' : state) :
  np_random_normal variates 0 (noise_level self) st = (noise, st') ->
  get_target_movement variates self t st
  = (Scalar (0.5 * sin (2 * PI * 1.2 * t) + 1.2 * sin (2 * PI * 0.3 * t)
             + noise), st') /\
  noise = 0 + noise_level self * variates (consumed st) /\
  consumed st' = S (consumed st) /\
  noise_level init = 0.4 /\
  (noise = 0 -> get_target_movement variates self 0 st = (Scalar 0, st')).
Proof.
  intros H. unfold get_target_movement. rewrite H.
  unfold np_random_normal in H. injection H as Hn Hs.
  repeat split.
  - symmetry. exact Hn.
  - rewrite <- Hs. reflexivity.
  - intros ->. rewrite !Rmult_0_r, sin_0. do 2 f_equal. ring.
Qed.

Lemma generator_sample_witness :
  np_random_normal silent 0 (noise_level init)
    (at_loop_entry init (Array1 0) 0)
  = (0 + noise_level init * silent 0%nat,
     snd (np_random_normal silent 0 (noise_level init)
            (at_loop_entry init (Array1 0) 0))) /\
  get_target_movement silent init 0 (at_loop_entry init (Array1 0) 0)
  = (Scalar (0.5 * sin (2 * PI * 1.2 * 0) + 1.2 * sin (2 * PI * 0.3 * 0)
             + (0 + noise_level init * silent 0%nat)),
     snd (np_random_normal silent 0 (noise_level init)
            (at_loop_entry init (Array1 0) 0))).
Proof.
  split.
  - reflexivity.
  - apply (generator_sample silent init 0 (at_loop_entry init (Array1 0) 0)
             (0 + noise_level init * silent 0%nat)
             (snd (np_random_normal silent 0 (noise_level init)
                     (at_loop_entry init (Array1 0) 0)))).
    reflexivity.
Defined.

(** C7.  The random stream is the only input of a run besides the object,
    [steps] and the position in the stream: two streams that agree on the
    [steps] variates following the position give the same run, that is the
    same trajectories, the same printed lines with the same coherence
    values, the same way of ending and the same final position.  The same
    holds of the loop started from any prediction. *)
Theorem run_determined_by_stream (z1 z2 : nat -> R) (self : RTDSimulation)
    (p0 : npval) (steps : Z) (pos : nat) :
  (forall k : nat, (k < Z.to_nat steps)%nat ->
     z1 (pos + k)%nat = z2 (pos + k)%nat) ->
  run z1 self steps pos = run z2 self steps pos /\
  run_from z1 self p0 steps pos = run_from z2 self p0 steps pos.
Proof.
  intros H. unfold run, run_from.
  rewrite !(for_loop_stream_ext self z1 z2)
    by (rewrite length_range; exact H).
  split; reflexivity.
Qed.

Lemma run_determined_by_stream_witness :
  (forall k : nat, (k < Z.to_nat 2)%nat ->
     silent (0 + k)%nat
     = (fun n : nat => if (n <? 2)%nat then 0 else 1) (0 + k)%nat) /\
  (run silent init 2 0
   = run (fun n : nat => if (n <? 2)%nat then 0 else 1) init 2 0 /\
   run_from silent init (Scalar 0) 2 0
   = run_from (fun n : nat => if (n <? 2)%nat then 0 else 1) init
       (Scalar 0) 2 0).
Proof.
  assert (H : forall k : nat, (k < Z.to_nat 2)%nat ->
     silent (0 + k)%nat
     = (fun n : nat => if (n <? 2)%nat then 0 else 1) (0 + k)%nat).
  { intros k Hk. cbn in Hk.
    destruct k as [|[|k]]; [reflexivity|reflexivity|lia]. }
  split.
  - exact H.
  - apply (run_determined_by_stream silent
             (fun n : nat => if (n <? 2)%nat then 0 else 1)
             init (Scalar 0) 2 0 H).
Defined.

(** C9.  The denominator of the metric is [|raw| + 1.5], which is strictly
    positive for every raw sample: the metric always has a value, and no
    iteration of the loop ends on a division by zero. *)
Theorem coherence_division_defined (stable_pos target_pos : npval) :
  item (np_add (np_abs target_pos) (Scalar 1.5))
  = Rabs (item target_pos) + 1.5 /\
  0 < item (np_add (np_abs target_pos) (Scalar 1.5)) /\
  (exists c : npval,
      coherence stable_pos target_pos = inr c /\
      item c = 1 - Rabs (item stable_pos - item target_pos)
                   / (Rabs (item target_pos) + 1.5)) /\
  (forall (variates : nat -> R) (self : RTDSimulation) (i : Z)
          (st st' : state),
      loop_body variates self i st <> Raised DivideByZero st').
Proof.
  split; [apply coherence_denominator|].
  split.
  - rewrite coherence_denominator.
    pose proof (Rabs_pos (item target_pos)). lra.
  - split; [apply coherence_value|].
    intros. apply loop_body_no_divide_by_zero.
Qed.

(** C10.  What the code does where the claim promises [steps] draws:
    [run(2)] on the object [RTDSimulation()] has drawn one variate, not
    two, when it ends. *)
Theorem run_two_steps_draws_once (variates : nat -> R) (pos : nat) :
  consumed (state_of (run variates init 2 pos)) = (pos + 1)%nat /\
  consumed (state_of (run variates init 2 pos)) <> (pos + 2)%nat.
Proof.
  destruct (run_raises variates init 2 pos init_decay_bounded)
    as (st & Hst & Hc & _); [lia|].
  rewrite Hst. cbn [state_of]. rewrite Hc. split; lia.
Qed.

(** * Examples *)

(** [run(0)] returns two empty lists and prints no step line. *)
Example run_zero_steps :
  returned (run silent init 0 0) = Some ([], []) /\
  step_lines (stdout (state_of (run silent init 0 0))) = [].
Proof. rewrite run_nonpositive by lia. split; reflexivity. Qed.

(** One step without noise, the prediction started as the scalar [0.0]:
    the raw sample at [t = 0] is 0, the filtered state is 0, the coherence
    printed for step 0 is 1, and both trajectories are returned. *)
Example scalar_start_one_step :
  run_from silent init (Scalar 0) 1 0
  = Normal {| consumed := 1;
              stdout := [BannerStarted; BannerTarget;
                         BannerNoise (noise_level init * 100); Rule;
                         StepLine 0 1;
                         Rule; SimulationComplete; FrameworkReady];
              current_prediction := Scalar 0;
              raw_sensor_data := [Scalar 0];
              rtd_trajectory := [Scalar 0] |}.
Proof.
  unfold run_from. change (range 1) with [0%Z]. cbn [for_loop].
  unfold loop_body. rewrite get_target_movement_eq. cbv zeta.
  cbn [consumed stdout current_prediction raw_sensor_data rtd_trajectory
       at_loop_entry app].
  change (0 mod 200 =? 0)%Z with true. cbv iota.
  unfold silent.
  replace (0.5 * sin (2 * PI * 1.2 * (0 * dt init))
           + 1.2 * sin (2 * PI * 0.3 * (0 * dt init))
           + (0 + noise_level init * 0)) with 0
    by (rewrite !Rmult_0_l, !Rmult_0_r, sin_0; ring).
  rewrite apply_rtd_filter_scalar.
  replace (0 + (0 - 0) * (1 - eigen_decay init)) with 0 by ring.
  unfold coherence, np_divide. cbn [np_abs np_add np_sub broadcast2 item].
  destruct (Req_dec_T _ 0) as [Hz|_];
    [rewrite Rabs_R0 in Hz; lra|].
  replace (1 - Rabs (0 - 0) / (Rabs 0 + 1.5)) with 1
    by (rewrite Rminus_diag, Rabs_R0; unfold Rdiv;
        rewrite Rmult_0_l; ring).
  unfold py_max. cbn [num item].
  destruct (Rlt_dec 0 1) as [_|H]; [reflexivity|lra].
Qed.

(** The same step as [run] performs it, the prediction started as
    [np.array([0.0])]: the log statement raises. *)
Example array_start_one_step :
  exists st : state,
    run silent init 1 0 = Raised TypeError st /\
    consumed st = 1%nat /\
    step_lines (stdout st) = [].
Proof.
  destruct (run_raises silent init 1 0 init_decay_bounded)
    as (st & Hst & Hc & Hout & _); [lia|].
  exists st. rewrite Hout. auto.
Qed.

(** * Further properties of the filter *)

(** X1.  A state equal to the raw sample is a fixed point of the update:
    zero error gives zero correction, whatever the decay, and iterating
    from it stays there. *)
Theorem filter_fixed_point (self : RTDSimulation) (r : R) :
  apply_rtd_filter self (Scalar r) (Scalar r) = Scalar r /\
  (forall raw predicted : npval,
      item raw = item predicted ->
      item (apply_rtd_filter self raw predicted) = item predicted) /\
  (forall k : nat, iterate_filter self r r k = Scalar r).
Proof.
  assert (H : apply_rtd_filter self (Scalar r) (Scalar r) = Scalar r).
  { rewrite apply_rtd_filter_scalar. f_equal. ring. }
  split; [exact H|]. split.
  - intros raw predicted E. rewrite item_apply_rtd_filter, E. ring.
  - induction k as [|k IH]; [reflexivity|].
    cbn [iterate_filter]. rewrite IH. exact H.
Qed.

(** * Further properties of the generator and of the metric *)

Lemma displacement_bounded (t : R) : Rabs (displacement t) <= 1.7.
Proof.
  unfold displacement.
  pose proof (SIN_bound (2 * PI * 1.2 * t)).
  pose proof (SIN_bound (2 * PI * 0.3 * t)).
  apply Rabs_le. lra.
Qed.

(** X5.  Without its noise term a sample is bounded: the two sinusoids add
    up to at most 1.7 in absolute value, at every time. *)
Theorem generator_bounded (variates : nat -> R) (self : RTDSimulation)
    (t : R) (st : state) :
  item (fst (get_target_movement variates self t st))
  = displacement t + (0 + noise_level self * variates (consumed st)) /\
  Rabs (item (fst (get_target_movement variates self t st))
        - (0 + noise_level self * variates (consumed st))) <= 1.7.
Proof.
  rewrite get_target_movement_eq. cbn [fst item].
  fold (displacement t). split; [reflexivity|].
  replace (displacement t + (0 + noise_level self * variates (consumed st))
           - (0 + noise_level self * variates (consumed st)))
    with (displacement t) by ring.
  apply displacement_bounded.
Qed.

(** X7.  The coherence metric always has a value, it is at most 1, and it
    is 1 when the filtered state equals the raw sample. *)
Theorem coherence_at_most_one (stable_pos target_pos : npval) :
  exists c : npval,
    coherence stable_pos target_pos = inr c /\
    item c <= 1 /\
    (item stable_pos = item target_pos -> item c = 1).
Proof.
  destruct (coherence_value stable_pos target_pos) as [c [Hc Hv]].
  exists c. split; [exact Hc|].
  set (n := Rabs (item stable_pos - item target_pos)) in *.
  set (d := Rabs (item target_pos) + 1.5) in *.
  assert (Hd : 0 < d)
    by (pose proof (Rabs_pos (item target_pos)); subst d; lra).
  assert (Hn : 0 <= n) by apply Rabs_pos.
  assert (Hq : 0 <= n / d).
  { unfold Rdiv. apply Rmult_le_pos; [exact Hn|].
    left. apply Rinv_0_lt_compat. exact Hd. }
  split; [lra|].
  intros E. rewrite Hv. subst n. rewrite E, Rminus_diag, Rabs_R0.
  unfold Rdiv. rewrite Rmult_0_l. ring.
Qed.

(** * Further properties of the loop *)

Section LoopFacts.

Variable variates : nat -> R.
Variable self : RTDSimulation.

(** Anything an iteration keeps, the loop keeps, however it ends. *)
Lemma for_loop_preserves (P : state -> Prop) :
  (forall (i : Z) (st : state),
      P st -> P (state_of (loop_body variates self i st))) ->
  forall (indices : list Z) (st : state),
    P st -> P (state_of (for_loop variates self indices st)).
Proof.
  intros Hbody. induction indices as [|i rest IH]; intros st Hst;
    [exact Hst|].
  cbn [for_loop]. pose proof (Hbody i st Hst) as Hb.
  destruct (loop_body variates self i st) as [st'|e st']; cbn in Hb.
  - apply IH. exact Hb.
  - exact Hb.
Qed.

(** An iteration that raises raises [TypeError], on a sampled step, with
    nothing printed. *)
Lemma loop_body_raised (i : Z) (st st' : state) (e : exn) :
  loop_body variates self i st = Raised e st' ->
  e = TypeError /\ sampled i = true /\ stdout st' = stdout st.
Proof.
  intros H.
  pose proof (loop_body_stdout variates self i st) as Ho.
  rewrite H in Ho. destruct Ho as [Ho Hi].
  split; [|split; [apply Z.eqb_eq; exact Hi|exact Ho]].
  destruct e; [|reflexivity].
  exfalso. exact (loop_body_no_divide_by_zero variates self i st st' H).
Qed.

(** With an array prediction, an iteration that ends normally has printed
    nothing or the value 0. *)
Lemma loop_body_array_normal (i : Z) (st st' : state) (p : R) :
  current_prediction st = Array1 p ->
  loop_body variates self i st = Normal st' ->
  (sampled i = false /\ stdout st' = stdout st) \/
  (sampled i = true /\ stdout st' = stdout st ++ [StepLine i 0]).
Proof.
  intros Hp H. unfold sampled.
  destruct (i mod 200 =? 0)%Z eqn:Hi.
  - right. split; [reflexivity|]. apply Z.eqb_eq in Hi.
    destruct (loop_body_array variates self i st p Hp Hi) as [Hpos Hneg].
    match type of Hneg with
    | ?c <= 0 -> _ => destruct (Rlt_dec 0 c) as [Hc|Hc]
    end.
    + destruct (Hpos Hc) as [st1 H1]. rewrite H in H1. discriminate.
    + destruct Hneg as (st1 & H1 & Hout); [lra|].
      rewrite H in H1. injection H1 as <-. exact Hout.
  - left. split; [reflexivity|].
    pose proof (loop_body_stdout variates self i st) as Ho.
    rewrite H, Hi in Ho. exact Ho.
Qed.

Lemma loop_body_shapes (i : Z) (st : state) :
  shapes_of_run st ->
  shapes_of_run (state_of (loop_body variates self i st)).
Proof.
  intros (Hr & Hf & Hp).
  destruct (loop_body_state variates self i st) as (_ & Ep & Er & Ef).
  rewrite get_target_movement_eq in Ep, Er, Ef. cbn [fst] in Ep, Er, Ef.
  destruct (current_prediction st) as [q|q] eqn:Eq; [discriminate|].
  rewrite apply_rtd_filter_array in Ep, Ef.
  unfold shapes_of_run. rewrite Ep, Er, Ef, !forallb_app, Hr, Hf.
  repeat split.
Qed.

(** The indices of the step lines an iteration prints. *)
Lemma loop_body_step_lines (i : Z) (st : state) :
  match loop_body variates self i st with
  | Normal st' =>
      exists new : list (Z * R),
        stdout st' = stdout st ++ map step_line new /\
        map fst new = filter sampled [i]
  | Raised _ st' => stdout st' = stdout st
  end.
Proof.
  pose proof (loop_body_stdout variates self i st) as Ho.
  destruct (loop_body variates self i st) as [st'|e st']; [|apply Ho].
  cbn [filter]. unfold sampled.
  destruct (i mod 200 =? 0)%Z.
  - destruct Ho as [v Hv]. exists [(i, v)]. split; [exact Hv|reflexivity].
  - exists []. rewrite app_nil_r. split; [exact Ho|reflexivity].
Qed.

(** The loop only appends step lines to the output, for sampled indices, in
    the order of the indices; when it ends normally there is one for every
    sampled index. *)
Lemma for_loop_step_lines (indices : list Z) (st : state) :
  exists (new : list (Z * R)) (rest : list Z),
    stdout (state_of (for_loop variates self indices st))
    = stdout st ++ map step_line new /\
    filter sampled indices = map fst new ++ rest /\
    (forall st' : state,
        for_loop variates self indices st = Normal st' -> rest = []).
Proof.
  revert st. induction indices as [|i tl IH]; intros st.
  - exists [], []. rewrite app_nil_r. repeat split.
  - cbn [for_loop].
    pose proof (loop_body_step_lines i st) as Hb.
    destruct (loop_body variates self i st) as [st1|e st1].
    + destruct Hb as (n1 & Ho1 & Hi1).
      destruct (IH st1) as (n2 & rest & Ho2 & Hi2 & Hn).
      exists (n1 ++ n2), rest. repeat split.
      * rewrite Ho2, Ho1, map_app, app_assoc. reflexivity.
      * change (i :: tl) with ([i] ++ tl).
        rewrite filter_app, <- Hi1, Hi2, map_app, app_assoc. reflexivity.
      * exact Hn.
    + exists [], (filter sampled (i :: tl)). cbn [state_of map app].
      rewrite app_nil_r. repeat split; [exact Hb|discriminate].
Qed.

Lemma step_lines_app (a b : list line) :
  step_lines (a ++ b) = step_lines a ++ step_lines b.
Proof. unfold step_lines. apply flat_map_app. Qed.

Lemma step_lines_step_line (new : list (Z * R)) :
  step_lines (map step_line new) = new.
Proof.
  induction new as [|[i c] tl IH]; [reflexivity|].
  cbn. f_equal. exact IH.
Qed.

(** With an array prediction every value the loop prints is 0. *)
Lemma for_loop_array_prints_zero (indices : list Z) (st : state) :
  is_array (current_prediction st) = true ->
  exists new : list (Z * R),
    stdout (state_of (for_loop variates self indices st))
    = stdout st ++ map step_line new /\
    Forall (fun ic : Z * R => snd ic = 0) new.
Proof.
  revert st. induction indices as [|i tl IH]; intros st Hp.
  - exists []. rewrite app_nil_r. split; [reflexivity|constructor].
  - cbn [for_loop].
    destruct (current_prediction st) as [q|q] eqn:Eq; [discriminate|].
    pose proof (loop_body_state variates self i st) as (_ & Ep & _).
    rewrite Eq, apply_rtd_filter_array in Ep.
    pose proof (loop_body_array_normal i st) as Hn.
    pose proof (loop_body_raised i st) as Hr.
    destruct (loop_body variates self i st) as [st1|e st1].
    + cbn in Ep.
      destruct (IH st1) as (n2 & Ho2 & Hz2); [rewrite Ep; reflexivity|].
      destruct (Hn st1 q Eq eq_refl) as [[_ Ho]|[_ Ho]].
      * exists n2. rewrite Ho2, Ho. split; [reflexivity|exact Hz2].
      * exists ((i, 0) :: n2). rewrite Ho2, Ho, <- app_assoc.
        split; [reflexivity|]. constructor; [reflexivity|exact Hz2].
    + destruct (Hr st1 e eq_refl) as (_ & _ & Ho).
      exists []. cbn [state_of map]. rewrite app_nil_r.
      split; [exact Ho|constructor].
Qed.

(** One more iteration, at the index that equals the number of iterations
    done. *)
Lemma loop_body_after_iterations (pos k : nat) (st : state) :
  after_iterations variates self pos k st ->
  after_iterations variates self pos (S k)
    (state_of (loop_body variates self (Z.of_nat k) st)).
Proof.
  intros (Hr & Hf & Hc & Hn).
  destruct (loop_body_state variates self (Z.of_nat k) st)
    as (Ec & _ & Er & Ef).
  rewrite get_target_movement_eq in Er. cbn [fst] in Er.
  unfold after_iterations. rewrite Ec, Er, Ef, !length_app, Hr, Hf, Hc.
  cbn [length]. repeat split; try lia.
  intros j Hj. destruct (Nat.eq_dec j k) as [->|Hne].
  - rewrite <- Hr at 1. rewrite nth_middle. reflexivity.
  - rewrite app_nth1 by lia. apply Hn. lia.
Qed.

(** The loop over the indices [k, k+1, ..., k+n-1], entered after [k]
    iterations: it ends after all of them, or by [TypeError] in the
    iteration of a sampled index. *)
Lemma for_loop_seq (pos n k : nat) (st : state) :
  after_iterations variates self pos k st ->
  exists k' : nat,
    after_iterations variates self pos k'
      (state_of (for_loop variates self (map Z.of_nat (seq k n)) st)) /\
    match for_loop variates self (map Z.of_nat (seq k n)) st with
    | Normal _ => k' = (k + n)%nat
    | Raised e _ =>
        e = TypeError /\ (k < k' <= k + n)%nat /\
        sampled (Z.of_nat (k' - 1)) = true
    end.
Proof.
  revert k st. induction n as [|n IH]; intros k st Hst.
  - exists k. cbn. split; [exact Hst|lia].
  - cbn [seq map for_loop].
    pose proof (loop_body_after_iterations pos k st Hst) as Hb.
    pose proof (loop_body_raised (Z.of_nat k) st) as Hr.
    destruct (loop_body variates self (Z.of_nat k) st) as [st1|e st1].
    + cbn in Hb. destruct (IH (S k) st1 Hb) as (k' & Hk' & Hend).
      exists k'. split; [exact Hk'|].
      destruct (for_loop variates self (map Z.of_nat (seq (S k) n)) st1).
      * lia.
      * destruct Hend as (He & Hk & Hs). repeat split; [exact He|lia|lia|].
        exact Hs.
    + cbn in Hb. destruct (Hr st1 e eq_refl) as (He & Hs & _).
      exists (S k). cbn [state_of]. split; [exact Hb|].
      repeat split; [exact He|lia|lia|].
      replace (S k - 1)%nat with k by lia. exact Hs.
Qed.

End LoopFacts.

(** * Further properties of the driver *)

Section RunFacts.

Variable variates : nat -> R.
Variable self : RTDSimulation.

Lemma at_loop_entry_after_zero (p0 : npval) (pos : nat) :
  after_iterations variates self pos 0 (at_loop_entry self p0 pos).
Proof.
  unfold after_iterations. cbn. repeat split; lia.
Qed.

(** What [run_from] adds to the loop: the closing lines, when the loop ends
    normally. *)
Lemma run_from_fields (p0 : npval) (steps : Z) (pos : nat) :
  let c := for_loop variates self (range steps) (at_loop_entry self p0 pos) in
  let st := state_of (run_from variates self p0 steps pos) in
  raw_sensor_data st = raw_sensor_data (state_of c) /\
  rtd_trajectory st = rtd_trajectory (state_of c) /\
  consumed st = consumed (state_of c) /\
  current_prediction st = current_prediction (state_of c) /\
  stdout st
  = stdout (state_of c)
    ++ match c with
       | Normal _ => [Rule; SimulationComplete; FrameworkReady]
       | Raised _ _ => []
       end.
Proof.
  unfold run_from.
  destruct (for_loop variates self (range steps) _) as [st1|e st1];
    cbn; repeat split.
  - rewrite <- !app_assoc. reflexivity.
  - rewrite app_nil_r. reflexivity.
Qed.

Lemma run_from_after_iterations (p0 : npval) (steps : Z) (pos : nat) :
  exists k : nat,
    after_iterations variates self pos k
      (state_of (run_from variates self p0 steps pos)) /\
    match run_from variates self p0 steps pos with
    | Normal _ => k = Z.to_nat steps
    | Raised e _ =>
        e = TypeError /\ (0 < k <= Z.to_nat steps)%nat /\
        sampled (Z.of_nat (k - 1)) = true
    end.
Proof.
  destruct (for_loop_seq variates self pos (Z.to_nat steps) 0 _
              (at_loop_entry_after_zero p0 pos)) as (k & Hk & Hend).
  fold (range steps) in Hk, Hend.
  destruct (run_from_fields p0 steps pos) as (Er & Ef & Ec & _ & _).
  exists k. split.
  - unfold after_iterations in *. rewrite Er, Ef, Ec. exact Hk.
  - unfold run_from.
    destruct (for_loop variates self (range steps) _); cbn; exact Hend.
Qed.

End RunFacts.

Lemma displacement_zero (t : R) : displacement (0 * t) = 0.
Proof.
  unfold displacement. rewrite Rmult_0_l, !Rmult_0_r, sin_0. ring.
Qed.

(** The sign of the metric of step 0, for a raw sample [x] and a
    prediction of 0. *)
Lemma first_metric_sign (d x : R) :
  (Rabs d * Rabs x < Rabs x + 1.5 ->
   0 < 1 - Rabs (0 + (x - 0) * (1 - d) - x) / (Rabs x + 1.5)) /\
  (Rabs x + 1.5 <= Rabs d * Rabs x ->
   1 - Rabs (0 + (x - 0) * (1 - d) - x) / (Rabs x + 1.5) <= 0).
Proof.
  replace (0 + (x - 0) * (1 - d) - x) with (- (d * x)) by ring.
  rewrite Rabs_Ropp, Rabs_mult.
  pose proof (Rabs_pos x) as Hx.
  set (n := Rabs d * Rabs x). set (D := Rabs x + 1.5).
  assert (HD : 0 < D) by (subst D; lra).
  assert (E : n = n / D * D) by (field; lra).
  split; intros H.
  - assert (n / D < 1); [|lra].
    apply (Rmult_lt_reg_r D); [exact HD|]. rewrite <- E. lra.
  - assert (1 <= n / D); [|lra].
    apply (Rmult_le_reg_r D); [exact HD|]. rewrite <- E. lra.
Qed.

(** The first iteration of [run], by the first noise term [n]: [TypeError]
    when [|eigen_decay| * |n| < |n| + 1.5], and the line of step 0 with
    the value 0 otherwise. *)
Lemma first_iteration (variates : nat -> R) (self : RTDSimulation)
    (pos : nat) :
  let n := noise_level self * variates pos in
  let st0 := at_loop_entry self (Array1 0) pos in
  (Rabs (eigen_decay self) * Rabs n < Rabs n + 1.5 ->
   exists st, loop_body variates self 0 st0 = Raised TypeError st) /\
  (Rabs n + 1.5 <= Rabs (eigen_decay self) * Rabs n ->
   exists st, loop_body variates self 0 st0 = Normal st /\
              stdout st = stdout st0 ++ [StepLine 0 0]).
Proof.
  intros n st0. subst st0.
  destruct (loop_body_array variates self 0
              (at_loop_entry self (Array1 0) pos) 0 eq_refl eq_refl)
    as [Hpos Hneg].
  rewrite get_target_movement_eq in Hpos, Hneg.
  cbn [fst item consumed at_loop_entry] in Hpos, Hneg.
  fold (displacement (0 * dt self)) in Hpos, Hneg.
  rewrite displacement_zero in Hpos, Hneg.
  replace (0 + (0 + noise_level self * variates pos)) with n
    in Hpos, Hneg by (subst n; ring).
  destruct (first_metric_sign (eigen_decay self) n) as [H1 H2].
  split; intros H.
  - apply Hpos, H1, H.
  - apply Hneg, H2, H.
Qed.

(** X4.  In [run] every raw sample is a [float64] scalar, and every
    filtered state, like the prediction itself, is an array of one
    element: the shape of [np.array([0.0])] spreads to all that is
    computed from it. *)
Theorem run_trajectory_shapes (variates : nat -> R) (self : RTDSimulation)
    (steps : Z) (pos : nat) :
  forallb is_scalar
    (raw_sensor_data (state_of (run variates self steps pos))) = true /\
  forallb is_array
    (rtd_trajectory (state_of (run variates self steps pos))) = true /\
  is_array (current_prediction (state_of (run variates self steps pos)))
  = true.
Proof.
  destruct (run_from_fields variates self (Array1 0) steps pos)
    as (Er & Ef & _ & Ep & _).
  fold (run variates self steps pos) in Er, Ef, Ep.
  rewrite Er, Ef, Ep.
  apply (for_loop_preserves variates self shapes_of_run).
  - intros i st. apply loop_body_shapes.
  - repeat split.
Qed.

(** X8.  A loop that ends normally has printed exactly one step line per
    index that is a multiple of 200, in the order of the indices, and
    nothing for the other indices. *)
Theorem log_lines_at_sampled_steps (variates : nat -> R)
    (self : RTDSimulation) (indices : list Z) (st st' : state) :
  for_loop variates self indices st = Normal st' ->
  map fst (step_lines (stdout st'))
  = map fst (step_lines (stdout st)) ++ filter sampled indices.
Proof.
  intros H.
  destruct (for_loop_step_lines variates self indices st)
    as (new & rest & Ho & Hi & Hn).
  rewrite H in Ho. cbn [state_of] in Ho.
  rewrite (Hn st' H), app_nil_r in Hi.
  rewrite Ho, step_lines_app, step_lines_step_line, map_app, Hi.
  reflexivity.
Qed.

Lemma log_lines_at_sampled_steps_witness :
  for_loop silent init [0; 1; 200; 201; 400]%Z
    (at_loop_entry init (Scalar 0) 0)
  = Normal (state_of (for_loop silent init [0; 1; 200; 201; 400]%Z
                        (at_loop_entry init (Scalar 0) 0))) /\
  map fst (step_lines (stdout
    (state_of (for_loop silent init [0; 1; 200; 201; 400]%Z
                 (at_loop_entry init (Scalar 0) 0)))))
  = map fst (step_lines (stdout (at_loop_entry init (Scalar 0) 0)))
    ++ filter sampled [0; 1; 200; 201; 400]%Z.
Proof.
  assert (H : for_loop silent init [0; 1; 200; 201; 400]%Z
                (at_loop_entry init (Scalar 0) 0)
              = Normal (state_of
                  (for_loop silent init [0; 1; 200; 201; 400]%Z
                     (at_loop_entry init (Scalar 0) 0)))).
  { destruct (for_loop_scalar init silent [0; 1; 200; 201; 400]%Z
                (at_loop_entry init (Scalar 0) 0) 0 eq_refl) as [st' ->].
    reflexivity. }
  split.
  - exact H.
  - apply (log_lines_at_sampled_steps silent init
             [0; 1; 200; 201; 400]%Z (at_loop_entry init (Scalar 0) 0)
             _ H).
Defined.

(** X9.  [run] never prints a coherence other than 0: whatever the object,
    the stream and [steps], every step line in its output reports 0. *)
Theorem run_prints_only_zero (variates : nat -> R) (self : RTDSimulation)
    (steps : Z) (pos : nat) :
  Forall (fun ic : Z * R => snd ic = 0)
    (step_lines (stdout (state_of (run variates self steps pos)))).
Proof.
  destruct (run_from_fields variates self (Array1 0) steps pos)
    as (_ & _ & _ & _ & Eo).
  fold (run variates self steps pos) in Eo. rewrite Eo.
  destruct (for_loop_array_prints_zero variates self (range steps)
              (at_loop_entry self (Array1 0) pos) eq_refl)
    as (new & Ho & Hz).
  rewrite Ho, !step_lines_app, step_lines_step_line.
  cbn [at_loop_entry stdout step_lines flat_map app].
  replace (step_lines _) with (@nil (Z * R)).
  - rewrite app_nil_r. exact Hz.
  - destruct (for_loop variates self (range steps) _); reflexivity.
Qed.

(** X10.  On an object whose noise level is not negative, the only
    exception [run] raises is [TypeError], and only in the
    log statement of a sampled step: when it is raised, the step that was
    under way is a multiple of 200, both trajectories already hold the
    entry of that step, one variate per entry has been drawn, and the
    closing lines have not been printed. *)
Theorem run_raises_only_type_error (variates : nat -> R)
    (self : RTDSimulation) (steps : Z) (pos : nat) (e : exn) (st : state) :
  0 <= noise_level self ->
  run variates self steps pos = Raised e st ->
  e = TypeError /\
  (0 < length (raw_sensor_data st) <= Z.to_nat steps)%nat /\
  sampled (Z.of_nat (length (raw_sensor_data st) - 1)) = true /\
  length (rtd_trajectory st) = length (raw_sensor_data st) /\
  consumed st = (pos + length (raw_sensor_data st))%nat /\
  ~ In SimulationComplete (stdout st) /\
  ~ In FrameworkReady (stdout st).
Proof.
  intros _ H.
  destruct (run_from_after_iterations variates self (Array1 0) steps pos)
    as (k & (Hr & Hf & Hc & _) & Hend).
  destruct (run_from_fields variates self (Array1 0) steps pos)
    as (_ & _ & _ & _ & Eo).
  destruct (for_loop_step_lines variates self (range steps)
              (at_loop_entry self (Array1 0) pos))
    as (new & _ & Ho & _).
  fold (run variates self steps pos) in Hr, Hf, Hc, Hend, Eo.
  assert (Hloop : exists st1,
             for_loop variates self (range steps)
               (at_loop_entry self (Array1 0) pos) = Raised e st1).
  { unfold run, run_from in H.
    destruct (for_loop variates self (range steps) _) as [st1|e1 st1];
      [discriminate|].
    injection H as -> _. exists st1. reflexivity. }
  destruct Hloop as [st1 Hloop].
  rewrite Hloop in Eo, Ho. rewrite H in *. cbn [state_of] in *.
  rewrite app_nil_r, Ho in Eo.
  destruct Hend as (He & Hk & Hs).
  rewrite Hr, Hf, Hc. repeat split; try assumption; try lia.
  - rewrite Eo. intros Hin. apply in_app_or in Hin.
    destruct Hin as [Hin|Hin].
    + cbn in Hin. intuition discriminate.
    + apply in_map_iff in Hin. destruct Hin as (ic & Hic & _).
      discriminate.
  - rewrite Eo. intros Hin. apply in_app_or in Hin.
    destruct Hin as [Hin|Hin].
    + cbn in Hin. intuition discriminate.
    + apply in_map_iff in Hin. destruct Hin as (ic & Hic & _).
      discriminate.
Qed.

Lemma run_raises_only_type_error_witness :
  0 <= noise_level init /\
  run silent init 1 0 = Raised TypeError (state_of (run silent init 1 0)) /\
  (TypeError = TypeError /\
   (0 < length (raw_sensor_data (state_of (run silent init 1 0)))
    <= Z.to_nat 1)%nat /\
   sampled (Z.of_nat (length (raw_sensor_data
                                (state_of (run silent init 1 0))) - 1))
   = true /\
   length (rtd_trajectory (state_of (run silent init 1 0)))
   = length (raw_sensor_data (state_of (run silent init 1 0))) /\
   consumed (state_of (run silent init 1 0))
   = (0 + length (raw_sensor_data (state_of (run silent init 1 0))))%nat /\
   ~ In SimulationComplete (stdout (state_of (run silent init 1 0))) /\
   ~ In FrameworkReady (stdout (state_of (run silent init 1 0)))).
Proof.
  assert (H : run silent init 1 0
              = Raised TypeError (state_of (run silent init 1 0))).
  { destruct (run_raises silent init 1 0 init_decay_bounded)
      as (st & -> & _); [lia|reflexivity]. }
  assert (Hn : 0 <= noise_level init) by (cbn; lra).
  split; [exact Hn|]. split.
  - exact H.
  - apply (run_raises_only_type_error silent init 1 0 TypeError _ Hn H).
Defined.

(** X12.  However the loop ends, the trajectories it has built have the
    same length, at most [steps]; one variate per entry has been drawn;
    and the raw sample of step [j] is the displacement at [t = j * dt]
    plus the noise made of the [j]-th variate after the entry position. *)
Theorem raw_trajectory_samples (variates : nat -> R) (self : RTDSimulation)
    (p0 : npval) (steps : Z) (pos : nat) :
  let st := state_of (run_from variates self p0 steps pos) in
  (length (raw_sensor_data st) <= Z.to_nat steps)%nat /\
  length (rtd_trajectory st) = length (raw_sensor_data st) /\
  consumed st = (pos + length (raw_sensor_data st))%nat /\
  forall j : nat, (j < length (raw_sensor_data st))%nat ->
    nth j (raw_sensor_data st) (Scalar 0)
    = Scalar (0.5 * sin (2 * PI * 1.2 * (IZR (Z.of_nat j) * dt self))
              + 1.2 * sin (2 * PI * 0.3 * (IZR (Z.of_nat j) * dt self))
              + (0 + noise_level self * variates (pos + j)%nat)).
Proof.
  intros st.
  destruct (run_from_after_iterations variates self p0 steps pos)
    as (k & (Hr & Hf & Hc & Hn) & Hend).
  fold st in Hr, Hf, Hc, Hn. rewrite Hr, Hf, Hc. repeat split.
  - destruct (run_from variates self p0 steps pos); lia.
  - intros j Hj. apply Hn. exact Hj.
Qed.

Lemma Rabs_bounds (a B : R) : Rabs a <= B -> - B <= a <= B.
Proof.
  intros H. pose proof (Rle_abs a). pose proof (Rle_abs (- a)) as Hn.
  rewrite Rabs_Ropp in Hn. lra.
Qed.

(** With a decay between 0 and 1, threaded trajectories stay within any
    bound that holds of the initial prediction and of the raw samples. *)
Lemma threaded_bounded (self : RTDSimulation) (p0 : npval)
    (raws filts : list npval) (B : R) :
  threaded self p0 raws filts ->
  0 <= eigen_decay self <= 1 ->
  Rabs (item p0) <= B ->
  (forall i : nat, (i < length raws)%nat ->
     Rabs (item (nth i raws (Scalar 0))) <= B) ->
  forall i : nat, (i < length raws)%nat ->
    Rabs (item (nth i filts (Scalar 0))) <= B.
Proof.
  intros [Hlen Hnth] Hd Hp Hr.
  assert (Hstep : forall x p : npval,
             Rabs (item x) <= B -> Rabs (item p) <= B ->
             Rabs (item (apply_rtd_filter self x p)) <= B).
  { intros x p Hx Hq. rewrite item_apply_rtd_filter.
    apply Rabs_bounds in Hx. apply Rabs_bounds in Hq.
    apply Rabs_le. split; nra. }
  induction i as [|j IH]; intros Hi; rewrite (Hnth _ Hi); apply Hstep.
  - apply Hr. exact Hi.
  - exact Hp.
  - apply Hr. exact Hi.
  - apply IH. lia.
Qed.

(** X13.  The filter is stable on the generated signal: with a decay
    between 0 and 1, if every noise term is at most [B] in absolute value
    and the initial prediction at most [1.7 + B], then every filtered
    state the loop computes is at most [1.7 + B] in absolute value. *)
Theorem filtered_trajectory_bounded (variates : nat -> R)
    (self : RTDSimulation) (p0 : npval) (steps : Z) (pos : nat) (B : R) :
  0 <= eigen_decay self <= 1 ->
  Rabs (item p0) <= 1.7 + B ->
  (forall k : nat, Rabs (noise_level self * variates k) <= B) ->
  forall i : nat,
    (i < length (rtd_trajectory
                   (state_of (run_from variates self p0 steps pos))))%nat ->
    Rabs (item (nth i (rtd_trajectory
                         (state_of (run_from variates self p0 steps pos)))
                  (Scalar 0)))
    <= 1.7 + B.
Proof.
  intros Hd Hp Hnoise i Hi.
  destruct (run_from_after_iterations variates self p0 steps pos)
    as (k & (Hr & Hf & _ & Hn) & _).
  apply (threaded_bounded self p0 _ _ (1.7 + B)
           (run_from_threaded self variates p0 steps pos) Hd Hp);
    [|rewrite Hr, <- Hf; exact Hi].
  intros j Hj. rewrite Hn by (rewrite <- Hr; exact Hj).
  cbn [item]. unfold sample_value.
  pose proof (displacement_bounded (IZR (Z.of_nat j) * dt self)) as Hdisp.
  pose proof (Hnoise (pos + j)%nat) as Hz.
  apply Rabs_bounds in Hdisp. apply Rabs_bounds in Hz.
  apply Rabs_le. lra.
Qed.

Lemma filtered_trajectory_bounded_witness :
  0 <= eigen_decay init <= 1 /\
  Rabs (item (Scalar 1)) <= 1.7 + 0 /\
  (forall k : nat, Rabs (noise_level init * silent k) <= 0) /\
  (0 < length (rtd_trajectory
                 (state_of (run_from silent init (Scalar 1) 3 0))))%nat /\
  Rabs (item (nth 0 (rtd_trajectory
                       (state_of (run_from silent init (Scalar 1) 3 0)))
                (Scalar 0)))
  <= 1.7 + 0.
Proof.
  assert (Hd : 0 <= eigen_decay init <= 1) by (cbn; lra).
  assert (Hp : Rabs (item (Scalar 1)) <= 1.7 + 0)
    by (cbn; rewrite Rabs_pos_eq; lra).
  assert (Hz : forall k : nat, Rabs (noise_level init * silent k) <= 0)
    by (intros k; unfold silent; rewrite Rmult_0_r, Rabs_R0; lra).
  assert (Hi : (0 < length (rtd_trajectory
                  (state_of (run_from silent init (Scalar 1) 3 0))))%nat).
  { destruct (run_from_scalar_returns silent init 1 3 0)
      as (st & -> & _ & Hf & _).
    cbn [state_of]. rewrite Hf. cbn. lia. }
  split; [exact Hd|]. split; [exact Hp|]. split; [exact Hz|].
  split; [exact Hi|].
  apply (filtered_trajectory_bounded silent init (Scalar 1) 3 0 0
           Hd Hp Hz 0 Hi).
Defined.

(** X14.  Whenever [run] returns, both trajectories have [max(steps, 0)]
    entries, that many variates have been drawn, and the output ends with
    the rule and the two closing lines. *)
Theorem run_returns_full_trajectories (variates : nat -> R)
    (self : RTDSimulation) (steps : Z) (pos : nat) (st : state) :
  run variates self steps pos = Normal st ->
  length (raw_sensor_data st) = Z.to_nat steps /\
  length (rtd_trajectory st) = Z.to_nat steps /\
  consumed st = (pos + Z.to_nat steps)%nat /\
  exists before : list line,
    stdout st = before ++ [Rule; SimulationComplete; FrameworkReady].
Proof.
  intros H.
  destruct (run_from_after_iterations variates self (Array1 0) steps pos)
    as (k & (Hr & Hf & Hc & _) & Hend).
  destruct (run_from_fields variates self (Array1 0) steps pos)
    as (_ & _ & _ & _ & Eo).
  fold (run variates self steps pos) in Hr, Hf, Hc, Hend, Eo.
  assert (Hloop : exists st1,
             for_loop variates self (range steps)
               (at_loop_entry self (Array1 0) pos) = Normal st1).
  { unfold run, run_from in H.
    destruct (for_loop variates self (range steps) _) as [st1|e1 st1];
      [exists st1; reflexivity|discriminate]. }
  destruct Hloop as [st1 Hloop].
  rewrite Hloop in Eo. rewrite H in *. cbn [state_of] in *.
  rewrite Hend in Hr, Hf, Hc.
  split; [exact Hr|]. split; [exact Hf|]. split; [exact Hc|].
  exists (stdout st1). exact Eo.
Qed.

(** A run that gets past step 0: a decay of 3 and a first variate of 5. *)
Lemma run_returns_example :
  run (fun _ : nat => 5) (with_eigen_decay init 3) 1 0
  = Normal (state_of (run (fun _ : nat => 5) (with_eigen_decay init 3) 1 0)).
Proof.
  unfold run, run_from. change (range 1) with [0%Z]. cbn [for_loop].
  destruct (first_iteration (fun _ : nat => 5) (with_eigen_decay init 3) 0)
    as [_ Hpass].
  destruct Hpass as (st1 & -> & _); [|reflexivity].
  cbn [eigen_decay noise_level with_eigen_decay init].
  rewrite !Rabs_pos_eq by lra. lra.
Qed.

Lemma run_returns_full_trajectories_witness :
  run (fun _ : nat => 5) (with_eigen_decay init 3) 1 0
  = Normal (state_of (run (fun _ : nat => 5) (with_eigen_decay init 3) 1 0))
  /\
  (length (raw_sensor_data
             (state_of (run (fun _ : nat => 5) (with_eigen_decay init 3) 1 0)))
   = Z.to_nat 1 /\
   length (rtd_trajectory
             (state_of (run (fun _ : nat => 5) (with_eigen_decay init 3) 1 0)))
   = Z.to_nat 1 /\
   consumed
     (state_of (run (fun _ : nat => 5) (with_eigen_decay init 3) 1 0))
   = (0 + Z.to_nat 1)%nat /\
   exists before : list line,
     stdout (state_of (run (fun _ : nat => 5) (with_eigen_decay init 3) 1 0))
     = before ++ [Rule; SimulationComplete; FrameworkReady]).
Proof.
  split.
  - exact run_returns_example.
  - apply (run_returns_full_trajectories (fun _ : nat => 5)
             (with_eigen_decay init 3) 1 0 _ run_returns_example).
Defined.

(** X15.  Run as a script, the module prints the four banner lines (with a
    noise level of 40 percent), draws one variate, and ends on the
    [TypeError] of the log statement of step 0: no step line and no closing
    line is printed, and nothing is returned. *)
Theorem main_raises (variates : nat -> R) (pos : nat) :
  exists st : state,
    main variates pos = Raised TypeError st /\
    consumed st = S pos /\
    stdout st = [BannerStarted; BannerTarget; BannerNoise 40; Rule] /\
    returned (main variates pos) = None.
Proof.
  unfold main.
  destruct (run_raises variates init 1000 pos init_decay_bounded)
    as (st & Hst & Hc & Ho & _); [lia|].
  exists st. rewrite Hst. repeat split; [exact Hc|].
  rewrite Ho. do 3 f_equal. cbn. f_equal. lra.
Qed.

(** X16.  With a decay of 0 nothing is smoothed: every filtered state the
    loop computes has the value of the raw sample of its step. *)
Theorem zero_decay_tracks_raw (variates : nat -> R) (self : RTDSimulation)
    (p0 : npval) (steps : Z) (pos : nat) :
  eigen_decay self = 0 ->
  forall i : nat,
    (i < length (raw_sensor_data
                   (state_of (run_from variates self p0 steps pos))))%nat ->
    item (nth i (rtd_trajectory
                   (state_of (run_from variates self p0 steps pos)))
            (Scalar 0))
    = item (nth i (raw_sensor_data
                     (state_of (run_from variates self p0 steps pos)))
              (Scalar 0)).
Proof.
  intros Hd i Hi.
  destruct (run_from_threaded self variates p0 steps pos) as [_ Hnth].
  rewrite (Hnth i Hi), item_apply_rtd_filter, Hd. ring.
Qed.

Lemma zero_decay_tracks_raw_witness :
  eigen_decay (with_eigen_decay init 0) = 0 /\
  (0 < length (raw_sensor_data
                 (state_of (run_from silent (with_eigen_decay init 0)
                              (Scalar 1) 2 0))))%nat /\
  item (nth 0 (rtd_trajectory
                 (state_of (run_from silent (with_eigen_decay init 0)
                              (Scalar 1) 2 0)))
          (Scalar 0))
  = item (nth 0 (raw_sensor_data
                   (state_of (run_from silent (with_eigen_decay init 0)
                                (Scalar 1) 2 0)))
            (Scalar 0)).
Proof.
  assert (Hi : (0 < length (raw_sensor_data
                  (state_of (run_from silent (with_eigen_decay init 0)
                               (Scalar 1) 2 0))))%nat).
  { destruct (run_from_scalar_returns silent (with_eigen_decay init 0) 1 2 0)
      as (st & -> & Hr & _).
    cbn [state_of]. rewrite Hr. cbn. lia. }
  split; [reflexivity|]. split; [exact Hi|].
  apply (zero_decay_tracks_raw silent (with_eigen_decay init 0)
           (Scalar 1) 2 0 eq_refl 0 Hi).
Defined.

(** * The filter in binary64 *)

Lemma is_finite_spec (x : float) :
  is_finite x = sf_finite (Prim2SF x).
Proof.
  unfold is_finite, is_nan, is_infinity.
  rewrite !eqb_spec, abs_spec.
  change (Prim2SF infinity) with (S754_infinity false).
  unfold SFeqb.
  destruct (Prim2SF x) as [s|s| |s m e]; cbn.
  - reflexivity.
  - destruct s; reflexivity.
  - reflexivity.
  - rewrite Z.compare_refl, Pos.compare_cont_refl. destruct s; reflexivity.
Qed.

Lemma is_infinity_spec (x : float) :
  is_infinity x = true -> exists s : bool, Prim2SF x = S754_infinity s.
Proof.
  unfold is_infinity. rewrite eqb_spec, abs_spec.
  change (Prim2SF infinity) with (S754_infinity false).
  unfold SFeqb.
  destruct (Prim2SF x) as [s|s| |s m e]; cbn; try discriminate.
  intros _. exists s. reflexivity.
Qed.

(** A difference that is finite has finite operands. *)
Lemma SF64sub_finite (a b : spec_float) :
  sf_finite (SF64sub a b) = true ->
  sf_finite a = true /\ sf_finite b = true.
Proof.
  destruct a as [sa|sa| |sa ma ea], b as [sb|sb| |sb mb eb]; cbn;
    try (intros; split; reflexivity); try discriminate.
  all: destruct sa, sb; cbn; discriminate.
Qed.

(** C8, the claim as stated fails: with a decay of 1 and the finite inputs
    [raw = 1e308], [predicted = -1e308], the difference overflows, its
    product with [0.0] is NaN, and the update returns NaN, not
    [predicted]. *)
Lemma frozen_filter_overflows :
  is_finite 1e308 = true /\
  is_finite (-1e308) = true /\
  is_nan (Float64.apply_rtd_filter 1 1e308 (-1e308)) = true /\
  (Float64.apply_rtd_filter 1 1e308 (-1e308) =? -1e308)%float = false.
Proof. vm_compute. repeat split. Qed.

(** C8, as the code has it.  With the decay equal to 1 the filter is frozen
    as long as the difference [raw - predicted] is finite: the update then
    returns a value equal to [predicted] (and both inputs are finite).
    When the difference overflows to an infinity the update returns NaN.
    Either way it returns a value: the filter has no error outcome. *)
Theorem frozen_filter_float64 (raw predicted : float) :
  (is_finite (raw - predicted) = true ->
   (Float64.apply_rtd_filter 1 raw predicted =? predicted)%float = true /\
   is_finite raw = true /\ is_finite predicted = true) /\
  (is_infinity (raw - predicted) = true ->
   is_nan (Float64.apply_rtd_filter 1 raw predicted) = true).
Proof.
  unfold Float64.apply_rtd_filter.
  change (1 - 1)%float with 0%float.
  split; intros H.
  - rewrite is_finite_spec in H.
    pose proof H as Hsub. rewrite sub_spec in Hsub.
    apply SF64sub_finite in Hsub. destruct Hsub as [Hr Hp].
    rewrite !is_finite_spec. split; [|split; assumption].
    rewrite eqb_spec, add_spec, mul_spec.
    change (Prim2SF 0) with (S754_zero false).
    unfold SFeqb.
    destruct (Prim2SF (raw - predicted)) as [s|s| |s m e];
      try discriminate;
      destruct (Prim2SF predicted) as [sp|sp| |sp mp ep];
      try discriminate; cbn.
    + destruct sp, s; reflexivity.
    + rewrite Z.compare_refl, Pos.compare_cont_refl.
      destruct sp; reflexivity.
    + destruct sp, s; reflexivity.
    + rewrite Z.compare_refl, Pos.compare_cont_refl.
      destruct sp; reflexivity.
  - destruct (is_infinity_spec _ H) as [s Hs].
    unfold is_nan. rewrite eqb_spec, add_spec, mul_spec, Hs.
    change (Prim2SF 0) with (S754_zero false).
    destruct (Prim2SF predicted); reflexivity.
Qed.

Lemma frozen_filter_float64_witness :
  is_finite (0.1 - 0.4) = true /\
  (Float64.apply_rtd_filter 1 0.1 0.4 =? 0.4)%float = true /\
  is_finite 0.1 = true /\ is_finite 0.4 = true.
Proof.
  split.
  - reflexivity.
  - apply (proj1 (frozen_filter_float64 0.1 0.4)). reflexivity.
Defined.








(** * The threading of the filter by the driver *)

(** An iteration of an index that is not sampled ends normally. *)
Lemma loop_body_unsampled (variates : nat -> R) (self : RTDSimulation)
    (i : Z) (st : state) :
  sampled i = false ->
  exists st' : state, loop_body variates self i st = Normal st'.
Proof.
  intros Hi. pose proof (loop_body_raised variates self i st) as Hr.
  destruct (loop_body variates self i st) as [st'|e st'].
  - exists st'. reflexivity.
  - destruct (Hr st' e eq_refl) as (_ & Hs & _).
    rewrite Hs in Hi. discriminate.
Qed.

(** A run of two steps that returns: a decay of 3 and variates of 5. *)
Lemma run_two_steps_returns_example :
  run (fun _ : nat => 5) (with_eigen_decay init 3) 2 0
  = Normal (state_of (run (fun _ : nat => 5) (with_eigen_decay init 3) 2 0)).
Proof.
  unfold run, run_from. change (range 2) with [0%Z; 1%Z]. cbn [for_loop].
  destruct (first_iteration (fun _ : nat => 5) (with_eigen_decay init 3) 0)
    as [_ Hpass].
  destruct Hpass as (st1 & -> & _).
  - cbn [eigen_decay noise_level with_eigen_decay init].
    rewrite !Rabs_pos_eq by lra. lra.
  - destruct (loop_body_unsampled (fun _ : nat => 5)
                (with_eigen_decay init 3) 1 st1 eq_refl) as [st2 ->].
    reflexivity.
Qed.

(** C1.  The filter update returns
    [predicted + (raw - predicted) * (1 - eigen_decay)], and the driver
    threads it.  The prediction starts at 0.0 (held in an array of one
    element).  Every step the loop enters appends its raw sample and the
    update of the prediction by that sample: the first filtered state is
    the update of the initial prediction by the first raw sample, and each
    later one is the update of the filtered state before it by the raw
    sample of its step.  The trajectories hold one entry per step entered:
    [steps] entries when the loop ends normally, and the entries up to a
    sampled step when its log statement raises.  This holds of [run] and of
    the loop started from any other prediction; the noise level is taken
    not negative, as [np.random.normal] requires. *)
Theorem filter_update_threads_trajectory (variates : nat -> R)
    (self : RTDSimulation) (steps : Z) (pos : nat) :
  0 <= noise_level self ->
  (forall raw predicted : R,
      apply_rtd_filter self (Scalar raw) (Scalar predicted)
      = Scalar (predicted + (raw - predicted) * (1 - eigen_decay self))) /\
  (forall raw predicted : npval,
      item (apply_rtd_filter self raw predicted)
      = item predicted
        + (item raw - item predicted) * (1 - eigen_decay self)) /\
  run variates self steps pos
  = run_from variates self (Array1 0) steps pos /\
  item (current_prediction (at_loop_entry self (Array1 0) pos)) = 0 /\
  (forall p0 : npval,
      let c := run_from variates self p0 steps pos in
      let raws := raw_sensor_data (state_of c) in
      let filts := rtd_trajectory (state_of c) in
      length filts = length raws /\
      (forall i : nat, (i < length raws)%nat ->
         nth i filts (Scalar 0)
         = apply_rtd_filter self (nth i raws (Scalar 0))
             (match i with
              | O => p0
              | S j => nth j filts (Scalar 0)
              end)) /\
      (forall i : nat, (i < length raws)%nat ->
         item (nth i filts (Scalar 0))
         = item (apply_rtd_filter self (nth i raws (Scalar 0))
                   (match i with
                    | O => Scalar (item p0)
                    | S j => nth j filts (Scalar 0)
                    end))) /\
      match c with
      | Normal _ => length raws = Z.to_nat steps
      | Raised e _ =>
          e = TypeError /\
          (0 < length raws <= Z.to_nat steps)%nat /\
          sampled (Z.of_nat (length raws - 1)) = true
      end) /\
  (forall p : R,
      exists st : state,
        run_from variates self (Scalar p) steps pos = Normal st /\
        length (raw_sensor_data st) = Z.to_nat steps /\
        length (rtd_trajectory st) = Z.to_nat steps).
Proof.
  intros _.
  split; [exact (apply_rtd_filter_scalar self)|].
  split; [exact (item_apply_rtd_filter self)|].
  split; [reflexivity|]. split; [reflexivity|]. split.
  - intros p0 c raws filts.
    destruct (run_from_threaded self variates p0 steps pos) as [Hlen Hnth].
    destruct (run_from_after_iterations variates self p0 steps pos)
      as (k & (Hr & _) & Hend).
    fold c in Hlen, Hnth, Hr, Hend.
    fold raws in Hlen, Hnth, Hr. fold filts in Hlen, Hnth.
    split; [exact Hlen|]. split; [exact Hnth|]. split.
    + intros i Hi. rewrite (Hnth i Hi), !item_apply_rtd_filter.
      destruct i; reflexivity.
    + rewrite Hr. exact Hend.
  - intros p.
    destruct (run_from_scalar_returns variates self p steps pos)
      as (st & Hst & Hr & Hf & _).
    exists st. auto.
Qed.

Lemma filter_update_threads_trajectory_witness :
  0 <= noise_level (with_eigen_decay init 3) /\
  run (fun _ : nat => 5) (with_eigen_decay init 3) 2 0
  = Normal (state_of (run (fun _ : nat => 5) (with_eigen_decay init 3) 2 0))
  /\
  length (raw_sensor_data
            (state_of (run (fun _ : nat => 5) (with_eigen_decay init 3) 2 0)))
  = 2%nat /\
  nth 1 (rtd_trajectory
           (state_of (run (fun _ : nat => 5) (with_eigen_decay init 3) 2 0)))
    (Scalar 0)
  = apply_rtd_filter (with_eigen_decay init 3)
      (nth 1 (raw_sensor_data
                (state_of (run (fun _ : nat => 5)
                             (with_eigen_decay init 3) 2 0)))
         (Scalar 0))
      (nth 0 (rtd_trajectory
                (state_of (run (fun _ : nat => 5)
                             (with_eigen_decay init 3) 2 0)))
         (Scalar 0)).
Proof.
  assert (Hn : 0 <= noise_level (with_eigen_decay init 3)) by (cbn; lra).
  destruct (filter_update_threads_trajectory (fun _ : nat => 5)
              (with_eigen_decay init 3) 2 0 Hn)
    as (_ & _ & _ & _ & Hrun & _).
  specialize (Hrun (Array1 0)).
  fold (run (fun _ : nat => 5) (with_eigen_decay init 3) 2 0) in Hrun.
  cbv zeta in Hrun. destruct Hrun as (_ & Hnth & _ & Hcount).
  rewrite run_two_steps_returns_example in Hcount.
  cbn [state_of] in Hcount.
  split; [exact Hn|]. split; [exact run_two_steps_returns_example|].
  split; [exact Hcount|].
  apply (Hnth 1%nat). rewrite Hcount. cbn. lia.
Defined.
